(** * Height-map pipeline of the discontinuity-aware resampler

    Shallow embedding of [main] (height-map creation, median filter, hole
    filling, artificial samples at height discontinuities).

    Numbers.  A finite [float] is a rational number, so heights, the
    resolution and coordinates are values of [Q].  Comparisons ([<], [<=],
    [==], [!=]) are exact on floats and are the comparisons of [Q]; the
    arithmetic of the program ([+], [-], [*], [/]) is taken exactly, without
    rounding, and NaN and infinities are left out.  [int] is [Z]; the
    conversion of a float to an [int] truncates toward zero. *)

From Stdlib Require Import ZArith QArith Qround List Bool Lia Lqa.
From Stdlib Require Import Permutation Sorted.
Import ListNotations.
Local Open Scope Q_scope.

(** ** Scalars *)

(** [std::numeric_limits<float>::lowest()], i.e. [-(2 - 2^-23) * 2^127]. *)
Definition lowest : Q := inject_Z (- (2 ^ 128 - 2 ^ 104)).

(** [std::numeric_limits<float>::max()]. *)
Definition float_max : Q := inject_Z (2 ^ 128 - 2 ^ 104).

(** A rational lies in the range of the finite floats. *)
Definition in_float_range (v : Q) : Prop := lowest <= v /\ v <= float_max.

(** [a < b] on floats. *)
Definition fltb (a b : Q) : bool :=
  match a ?= b with Lt => true | _ => false end.

(** [std::max(a, b)] is [(a < b) ? b : a]; [std::min(a, b)] is [(b < a) ? b : a]. *)
Definition fmax (a b : Q) : Q := if fltb a b then b else a.
Definition fmin (a b : Q) : Q := if fltb b a then b else a.

(** Conversion of a float expression to [int]: truncation toward zero. *)
Definition to_int (q : Q) : Z := Z.quot (Qnum q) (Zpos (Qden q)).

(** ** Vectors and the bounding box *)

Record Vec3 : Type := mkVec3 { vx : Q; vy : Q; vz : Q }.

Record AABB : Type := mkAABB { aabb_min : Vec3; aabb_max : Vec3 }.

Definition vec_min (a b : Vec3) : Vec3 :=
  mkVec3 (fmin (vx a) (vx b)) (fmin (vy a) (vy b)) (fmin (vz a) (vz b)).
Definition vec_max (a b : Vec3) : Vec3 :=
  mkVec3 (fmax (vx a) (vx b)) (fmax (vy a) (vy b)) (fmax (vz a) (vz b)).

(** The loop over [verts] that grows the box from
    [(FLT_MAX, -FLT_MAX)]. *)
Definition aabb_of (verts : list Vec3) : AABB :=
  fold_left
    (fun a v => mkAABB (vec_min (aabb_min a) v) (vec_max (aabb_max a) v))
    verts
    (mkAABB (mkVec3 float_max float_max float_max)
            (mkVec3 (- float_max) (- float_max) (- float_max))).

(** [volume]: zero as soon as one extent is not positive. *)
Definition volume (aabb : AABB) : Q :=
  let d0 := vx (aabb_max aabb) - vx (aabb_min aabb) in
  let d1 := vy (aabb_max aabb) - vy (aabb_min aabb) in
  let d2 := vz (aabb_max aabb) - vz (aabb_min aabb) in
  if Qle_bool d0 0 then 0
  else if Qle_bool d1 0 then 0
  else if Qle_bool d2 0 then 0
  else d0 * d1 * d2.

(** ** The image ([mve::FloatImage], one channel)

    A buffer of [width * height] floats in row-major order: [at(x, y, 0)] is
    the element at offset [x + y * width], with no check of [x] against the
    width or of [y] against the height. *)

Record Image : Type := mkImage { width : Z; height : Z; pixels : list Q }.

Definition zrange (n : Z) : list Z := map Z.of_nat (seq 0 (Z.to_nat n)).


(** [FloatImage::create(w, h, 1)] followed by [fill(v)]. *)
Definition create_filled (w h : Z) (v : Q) : Image :=
  mkImage w h (repeat v (Z.to_nat (w * h))).

Definition offset (img : Image) (x y : Z) : Z := x + y * width img.

(** A read through [at]; [None] when the offset leaves the buffer. *)
Definition get (img : Image) (x y : Z) : option Q :=
  let off := offset img x y in
  if (0 <=? off)%Z then nth_error (pixels img) (Z.to_nat off) else None.

Fixpoint update (l : list Q) (n : nat) (v : Q) : list Q :=
  match l, n with
  | [], _ => []
  | _ :: t, O => v :: t
  | a :: t, S k => a :: update t k v
  end.

(** A write through [at]; [None] when the offset leaves the buffer. *)
Definition set (img : Image) (x y : Z) (v : Q) : option Image :=
  let off := offset img x y in
  if ((0 <=? off)%Z && (Z.to_nat off <? length (pixels img))%nat)%bool
  then Some (mkImage (width img) (height img)
                     (update (pixels img) (Z.to_nat off) v))
  else None.

(** A read at a position known to be inside the image. *)
Definition at_ (img : Image) (x y : Z) : Q :=
  match get img x y with Some v => v | None => 0 end.

(** A fresh image every cell of which is written once: the two nested loops
    [for y < h] / [for x < w] that assign [tmp->at(x, y, 0)]. *)
Definition tabulate (w h : Z) (f : Z -> Z -> Q) : Image :=
  mkImage w h (flat_map (fun y => map (fun x => f x y) (zrange w)) (zrange h)).

Definition in_image (img : Image) (x y : Z) : Prop :=
  (0 <= x < width img)%Z /\ (0 <= y < height img)%Z.

(** The buffer has [width * height] entries, as [create] allocates it. *)
Definition well_sized (img : Image) : Prop :=
  (0 <= width img)%Z /\ (0 <= height img)%Z /\
  length (pixels img) = Z.to_nat (width img * height img).

(** The test [y == 0 || y == height - 1 || x == 0 || x == width - 1]. *)
Definition border (w h x y : Z) : bool :=
  ((y =? 0)%Z || (y =? h - 1)%Z || (x =? 0)%Z || (x =? w - 1)%Z)%bool.

(** ** Height-map creation *)

(** [int width = (aabb.max[0] - aabb.min[0]) / resolution + 1.0f]. *)
Definition grid_width (aabb : AABB) (r : Q) : Z :=
  to_int ((vx (aabb_max aabb) - vx (aabb_min aabb)) / r + 1).
Definition grid_height (aabb : AABB) (r : Q) : Z :=
  to_int ((vy (aabb_max aabb) - vy (aabb_min aabb)) / r + 1).

(** [int x = (vertex[0] - aabb.min[0]) / resolution + resolution / 2.0f + 0.5f]. *)
Definition bin (lo r v : Q) : Z := to_int ((v - lo) / r + r / 2 + (1 # 2)).

Definition bin_x (aabb : AABB) (r : Q) (vertex : Vec3) : Z :=
  bin (vx (aabb_min aabb)) r (vx vertex).
Definition bin_y (aabb : AABB) (r : Q) (vertex : Vec3) : Z :=
  bin (vy (aabb_min aabb)) r (vy vertex).

(** One iteration of the loop over the vertices. *)
Definition splat (aabb : AABB) (r : Q) (hmap : Image) (vertex : Vec3)
  : option Image :=
  let x := bin_x aabb r vertex in
  let y := bin_y aabb r vertex in
  let h := vz vertex in
  match get hmap x y with
  | None => None
  | Some z => if fltb h z then Some hmap else set hmap x y h
  end.

Fixpoint splat_all (aabb : AABB) (r : Q) (hmap : Image) (verts : list Vec3)
  : option Image :=
  match verts with
  | [] => Some hmap
  | v :: vs =>
      match splat aabb r hmap v with
      | None => None
      | Some hmap' => splat_all aabb r hmap' vs
      end
  end.

(** The empty height map of the cloud. *)
Definition empty_height_map (verts : list Vec3) (r : Q) : Image :=
  let aabb := aabb_of verts in
  create_filled (grid_width aabb r) (grid_height aabb r) lowest.

(** "Create height map". *)
Definition create_height_map (verts : list Vec3) (r : Q) : option Image :=
  splat_all (aabb_of verts) r (empty_height_map verts r) verts.




(** ** Patches and sorting *)

(** [patch]: [heights[a][b] = img->at(x + a - 1, y + b - 1, 0)]. *)
Definition patch (img : Image) (x y : Z) (a b : Z) : Q :=
  at_ img (x + (a - 1)) (y + (b - 1)).

(** The patch seen as [float[9]]. *)
Definition flat9 (p : Z -> Z -> Q) : list Q :=
  [p 0 0; p 0 1; p 0 2; p 1 0; p 1 1; p 1 2; p 2 0; p 2 1; p 2 2]%Z.

(** [std::sort] on floats, as an insertion sort. *)
Fixpoint insert (v : Q) (l : list Q) : list Q :=
  match l with
  | [] => [v]
  | a :: t => if Qle_bool v a then v :: l else a :: insert v t
  end.

Definition sort (l : list Q) : list Q := fold_right insert [] l.

(** ** Median filter *)



(** ** Hole filling *)

Definition is_lowest (v : Q) : bool := Qeq_bool v lowest.

(** [std::remove(heights, heights + 9, lowest)]. *)
Definition remove_lowest (l : list Q) : list Q :=
  filter (fun v => negb (is_lowest v)) l.

(** The body of the loops: the value written to [tmp] and whether [holes]
    is set. *)
Definition fill_cell (hmap : Image) (x y : Z) : Q * bool :=
  if border (width hmap) (height hmap) x y then (lowest, false)
  else if negb (is_lowest (at_ hmap x y)) then (at_ hmap x y, false)
  else
    let heights := remove_lowest (flat9 (patch hmap x y)) in
    let n := length heights in
    if (3 <=? n)%nat then (nth (n / 2) (sort heights) 0, false)
    else (lowest, true).

Definition cells (w h : Z) : list (Z * Z) :=
  flat_map (fun y => map (fun x => (x, y)) (zrange w)) (zrange h).

(** One pass of the [while] loop: the new image and the flag. *)
Definition fill_pass (hmap : Image) : Image * bool :=
  (tabulate (width hmap) (height hmap) (fun x y => fst (fill_cell hmap x y)),
   existsb (fun c => snd (fill_cell hmap (fst c) (snd c)))
           (cells (width hmap) (height hmap))).

(** [while (holes) { ... }], at most [fuel] passes. *)
Fixpoint fill_holes (fuel : nat) (hmap : Image) : option Image :=
  match fuel with
  | O => None
  | S fuel' =>
      let (tmp, holes) := fill_pass hmap in
      if holes then fill_holes fuel' tmp else Some tmp
  end.

(** ** Ground level *)

(** The reduction [min] over the cells that are not [lowest]. *)
Definition ground_level_of (hmap : Image) : Q :=
  fold_left
    (fun g h => if (negb (is_lowest h) && fltb h g)%bool then h else g)
    (pixels hmap) float_max.

(** The normalised height map. *)
Definition normalize_heights (hmap : Image) (ground_level : Q) : Image :=
  mkImage (width hmap) (height hmap)
    (map (fun h => if negb (is_lowest h) then h - ground_level else 0)
         (pixels hmap)).

(** ** Artificial samples at height discontinuities *)

(** An entry of [sverts] together with its entry of [snormals]. *)
Record Sample : Type := mkSample { position : Vec3; normal_of : Vec3 }.

Definition vec_add (a b : Vec3) : Vec3 :=
  mkVec3 (vx a + vx b) (vy a + vy b) (vz a + vz b).

Definition up : Vec3 := mkVec3 0 0 1.

Section Resampler.

(** [math::Vec3f::normalize], which takes a square root, and the query
    [kd_tree.find_nn(vertex, nullptr, max_dist)] on the tree of the
    cloud belong to libraries; both are parameters here. *)
Variable normalize : Vec3 -> Vec3.
Variable find_nn : Vec3 -> Q -> bool.

Variable fuse : bool.
Variable resolution : Q.
Variable aabb : AABB.
Variable ground_level : Q.
Variable hmap : Image.

(** [y <= 1 || y >= height - 2 || x <= 1 || x >= width - 2]. *)
Definition skipped (x y : Z) : bool :=
  ((y <=? 1)%Z || (y >=? height hmap - 2)%Z
   || (x <=? 1)%Z || (x >=? width hmap - 2)%Z)%bool.

Section Cell.
Variables x y : Z.

Definition heights : Z -> Z -> Q := patch hmap x y.

Definition rdx : Q := - heights 0 1 + heights 1 1.
Definition rdy : Q := - heights 1 0 + heights 1 1.
Definition fdx : Q := - heights 1 1 + heights 2 1.
Definition fdy : Q := - heights 1 1 + heights 1 2.

(** "Calculate relevant magnitude." *)
Definition magnitude : Q := fmax (fmax rdx (- fdx)) (fmax rdy (- fdy)).

Definition gx : Q :=
  - heights 0 0 + heights 2 0
  + 2 * (- heights 0 1 + heights 2 1)
  - heights 0 2 + heights 2 2.
Definition gy : Q :=
  - heights 0 0 + heights 0 2
  + 2 * (- heights 1 0 + heights 1 2)
  - heights 2 0 + heights 2 2.

Definition normal : Vec3 := normalize (mkVec3 (- gx) (- gy) 0).

Definition px : Q :=
  (inject_Z x - resolution / 2) * resolution + vx (aabb_min aabb).
Definition py : Q :=
  (inject_Z y - resolution / 2) * resolution + vy (aabb_min aabb).

(** The sample of the cell's own height, with a given normal. *)
Definition surface_sample (n : Vec3) : Sample :=
  mkSample (mkVec3 px py (heights 1 1 + ground_level)) n.

(** The vertex proposed at step [i] of the downward walk. *)
Definition wall_vertex (i : Z) : Vec3 :=
  mkVec3 px py (ground_level + heights 1 1 - inject_Z i * resolution).

(** [fdx > 0 && rdx < 0 && fdy > 0 && rdy < 0]. *)
Definition concave : bool :=
  (fltb 0 fdx && fltb rdx 0 && fltb 0 fdy && fltb rdy 0)%bool.

(** [for (int i = 1; i <= m / resolution; ++i)], from step [i] on, at
    most [fuel] iterations. *)
Fixpoint walls (fuel : nat) (i : Z) : list Sample :=
  match fuel with
  | O => []
  | S fuel' =>
      if Qle_bool (inject_Z i) (magnitude / resolution) then
        if (fuse && find_nn (wall_vertex i) resolution)%bool
        then walls fuel' (i + 1)
        else if concave then walls fuel' (i + 1)
        else mkSample (wall_vertex i) normal :: walls fuel' (i + 1)
      else []
  end.

(** The loop counter never passes [m / resolution] truncated, so this
    many iterations exhaust the loop. *)
Definition wall_steps : nat := S (Z.to_nat (to_int (magnitude / resolution))).

(** The samples one cell appends, in the order it appends them. *)
Definition cell_samples : list Sample :=
  if skipped x y then []
  else if Qle_bool magnitude resolution then
    if negb fuse then [surface_sample up] else []
  else
    surface_sample (normalize (vec_add up normal)) :: walls wall_steps 1.

End Cell.

(** The samples of all cells, row after row. *)
Definition resample : list Sample :=
  flat_map (fun c => cell_samples (fst c) (snd c))
           (cells (width hmap) (height hmap)).

End Resampler.

(** ** Sample inputs *)

Definition vec (x y z : Q) : Vec3 := mkVec3 x y z.


(** Two vertices spanning the unit cube. *)
Definition cloud_unit : list Vec3 := [vec 0 0 0; vec 1 1 1].

(** Three vertices spanning a box of 1.25 x 2 x 1. *)
Definition cloud_slab : list Vec3 :=
  [vec 0 0 0; vec (5 # 4) 0 1; vec 0 2 0].

(** Two vertices above the same cell and two more that span the box. *)
Definition cloud_pair : list Vec3 :=
  [vec 0 0 4; vec (1 # 10) (1 # 10) 6; vec 1 1 5; vec 0 0 3].

(** A 2 x 2 height map with the heights 5, 7 and 9 and one empty cell. *)
Definition terraces : Image := mkImage 2 2 [7; lowest; 5; 9].


(** A 3 x 3 height map of constant height 5. *)
Definition plateau : Image := create_filled 3 3 5.

(** A 3 x 3 height map without any height. *)
Definition void3 : Image := create_filled 3 3 lowest.

(** A 5 x 5 height map with a hole at its centre. *)
Definition pierced : Image :=
  tabulate 5 5 (fun x y => if ((x =? 2) && (y =? 2))%Z%bool then lowest
                           else inject_Z (x + 3 * y)).

(** A 5 x 5 height map of constant height 3. *)
Definition flat5 : Image := create_filled 5 5 3.



(** Stand-ins for the two library functions. *)
Definition keep_vector (v : Vec3) : Vec3 := v.
Definition nothing_near (v : Vec3) (max_dist : Q) : bool := false.

(** * Properties *)

(** ** Comparisons and truncation *)

Lemma fltb_true (a b : Q) : fltb a b = true <-> a < b.
Proof.
  unfold fltb. rewrite Qlt_alt.
  destruct (a ?= b); split; congruence.
Qed.


Lemma is_lowest_true (v : Q) : is_lowest v = true <-> v == lowest.
Proof. apply Qeq_bool_iff. Qed.

Lemma is_lowest_false (v : Q) : is_lowest v = false <-> ~ v == lowest.
Proof.
  rewrite <- Bool.not_true_iff_false, is_lowest_true. reflexivity.
Qed.



Lemma fmax_cases (a b : Q) : fmax a b = a \/ fmax a b = b.
Proof. unfold fmax. destruct (fltb a b); auto. Qed.

Lemma fmax_lt (a b c : Q) : a < c -> b < c -> fmax a b < c.
Proof. destruct (fmax_cases a b) as [-> | ->]; auto. Qed.

Lemma inject_Z_le (a b : Z) : (a <= b)%Z <-> inject_Z a <= inject_Z b.
Proof. rewrite Zle_Qle. reflexivity. Qed.

Lemma inject_Z_lt (a b : Z) : (a < b)%Z <-> inject_Z a < inject_Z b.
Proof. rewrite Zlt_Qlt. reflexivity. Qed.

Lemma inject_Z_nonneg (k : Z) : (0 <= k)%Z -> 0 <= inject_Z k.
Proof. intros H. now apply (inject_Z_le 0 k). Qed.

(** On a float that is not negative the conversion to [int] is the floor. *)
Lemma to_int_floor (q : Q) : 0 <= q -> to_int q = Qfloor q.
Proof.
  destruct q as [n d]. unfold Qle, to_int, Qfloor. simpl. intros H.
  apply Z.quot_div_nonneg; lia.
Qed.



Lemma Qfloor_eq (q : Q) (k : Z) :
  inject_Z k <= q -> q < inject_Z (k + 1) -> Qfloor q = k.
Proof.
  intros Hlo Hhi.
  pose proof (Qfloor_le q) as H1. pose proof (Qlt_floor q) as H2.
  assert (Qfloor q < k + 1)%Z by (apply inject_Z_lt; lra).
  assert (k < Qfloor q + 1)%Z by (apply inject_Z_lt; lra).
  lia.
Qed.

Lemma le_floor (j : Z) (q : Q) : inject_Z j <= q <-> (j <= Qfloor q)%Z.
Proof.
  split; intros H.
  - rewrite <- (Qfloor_Z j). now apply Qfloor_resp_le.
  - apply inject_Z_le in H. pose proof (Qfloor_le q). lra.
Qed.

(** Rounding to the nearest integer leaves an index that is not negative
    unchanged. *)
Lemma to_int_half (k : Z) (q : Q) :
  (0 <= k)%Z -> q == inject_Z k + (1 # 2) -> to_int q = k.
Proof.
  intros Hk E.
  pose proof (inject_Z_nonneg k Hk).
  rewrite to_int_floor by lra.
  apply Qfloor_eq.
  - lra.
  - rewrite inject_Z_plus. change (inject_Z 1) with 1. lra.
Qed.

(** ** Size of the height map *)



Lemma get_create_filled (w h : Z) (v : Q) (x y : Z) :
  (0 <= x < w)%Z -> (0 <= y < h)%Z ->
  get (create_filled w h v) x y = Some v.
Proof.
  intros Hx Hy. unfold get, offset. simpl.
  assert (0 <= x + y * w < w * h)%Z as Hoff by nia.
  replace (0 <=? x + y * w)%Z with true by (symmetry; apply Z.leb_le; lia).
  apply nth_error_repeat. lia.
Qed.




(** ** Placement of the samples against the binning *)

(** C9.  With a positive resolution, binning the planar position that the
    resampler gives to a cell it processes yields the indices of the cell
    again. *)
Theorem placement_rebins_to_cell
    (hmap : Image) (aabb : AABB) (r : Q) (x y : Z) (z : Q) :
  0 < r -> skipped hmap x y = false ->
  bin_x aabb r (mkVec3 (px r aabb x) (py r aabb y) z) = x /\
  bin_y aabb r (mkVec3 (px r aabb x) (py r aabb y) z) = y.
Proof.
  intros Hr Hs. unfold skipped in Hs.
  repeat (apply Bool.orb_false_elim in Hs; destruct Hs as [Hs ?]).
  assert (0 <= x)%Z by lia. assert (0 <= y)%Z by lia.
  unfold bin_x, bin_y, bin, px, py. simpl.
  split; apply to_int_half; trivial; field; lra.
Qed.

Lemma placement_rebins_to_cell_witness :
  bin_x (aabb_of cloud_unit) (1 # 2)
    (mkVec3 (px (1 # 2) (aabb_of cloud_unit) 2)
            (py (1 # 2) (aabb_of cloud_unit) 3) 7) = 2%Z /\
  bin_y (aabb_of cloud_unit) (1 # 2)
    (mkVec3 (px (1 # 2) (aabb_of cloud_unit) 2)
            (py (1 # 2) (aabb_of cloud_unit) 3) 7) = 3%Z.
Proof.
  apply (placement_rebins_to_cell (create_filled 5 6 0)); reflexivity.
Defined.

(** ** The write of a vertex can leave the buffer *)

(** C10.  The index of a vertex is used unchecked.  In the unit cube with
    resolution 1 the height map is 2 x 2, the vertex [(1, 1, 1)] lies in the
    box and gets the indices [(2, 2)], which equal the width and the height;
    its offset is outside the buffer, so the access through [at] is not
    defined and neither is the height map. *)
Theorem write_outside_height_map :
  exists (verts : list Vec3) (r : Q) (p : Vec3),
    let aabb := aabb_of verts in
    let hmap := empty_height_map verts r in
    0 < volume aabb /\ 0 < r /\ In p verts /\
    (vx (aabb_min aabb) <= vx p <= vx (aabb_max aabb) /\
     vy (aabb_min aabb) <= vy p <= vy (aabb_max aabb) /\
     vz (aabb_min aabb) <= vz p <= vz (aabb_max aabb)) /\
    (width hmap <= bin_x aabb r p)%Z /\
    (height hmap <= bin_y aabb r p)%Z /\
    get hmap (bin_x aabb r p) (bin_y aabb r p) = None /\
    set hmap (bin_x aabb r p) (bin_y aabb r p) (vz p) = None /\
    splat aabb r hmap p = None /\
    create_height_map verts r = None.
Proof.
  exists cloud_unit, 1, (vec 1 1 1). cbv zeta.
  repeat split; try (vm_compute; congruence).
  right. left. reflexivity.
Qed.

(** ** Images written cell by cell *)

Lemma nth_error_rows (f : Z -> Z -> Q) (w : nat) :
  forall (h s x y : nat),
    (x < w)%nat -> (y < h)%nat ->
    nth_error
      (flat_map (fun j => map (fun i => f i j) (map Z.of_nat (seq 0 w)))
                (map Z.of_nat (seq s h)))
      (x + y * w)
    = Some (f (Z.of_nat x) (Z.of_nat (s + y))).
Proof.
  induction h as [| h IH]; intros s x y Hx Hy; [lia |].
  simpl.
  destruct y as [| y].
  - rewrite nth_error_app1 by (rewrite !length_map, length_seq; lia).
    rewrite Nat.add_0_r. simpl Nat.mul. rewrite Nat.add_0_r.
    rewrite !nth_error_map, nth_error_seq.
    destruct (Nat.ltb_spec x w); [reflexivity | lia].
  - rewrite nth_error_app2 by (rewrite !length_map, length_seq; simpl; lia).
    rewrite !length_map, length_seq.
    replace (x + S y * w - w)%nat with (x + y * w)%nat by (simpl; lia).
    rewrite IH by lia.
    do 2 f_equal. lia.
Qed.

Lemma get_tabulate (w h : Z) (f : Z -> Z -> Q) (x y : Z) :
  (0 <= x < w)%Z -> (0 <= y < h)%Z ->
  get (tabulate w h f) x y = Some (f x y).
Proof.
  intros Hx Hy. unfold get, offset, tabulate, zrange. simpl.
  replace (0 <=? x + y * w)%Z with true by (symmetry; apply Z.leb_le; nia).
  replace (Z.to_nat (x + y * w))
    with (Z.to_nat x + Z.to_nat y * Z.to_nat w)%nat by nia.
  rewrite nth_error_rows by lia.
  rewrite Nat.add_0_l, !Z2Nat.id by lia. reflexivity.
Qed.

Lemma length_tabulate (w h : Z) (f : Z -> Z -> Q) :
  (0 <= w)%Z -> (0 <= h)%Z ->
  length (pixels (tabulate w h f)) = Z.to_nat (w * h).
Proof.
  intros Hw Hh. unfold tabulate, zrange. simpl.
  assert (forall (n s : nat),
    length (flat_map (fun j => map (fun i => f i j)
                                   (map Z.of_nat (seq 0 (Z.to_nat w))))
                     (map Z.of_nat (seq s n)))
    = (n * Z.to_nat w)%nat) as E.
  { induction n as [| n IH]; intros s; simpl; [reflexivity |].
    rewrite length_app, !length_map, length_seq, IH. reflexivity. }
  rewrite E, Z2Nat.inj_mul by assumption. apply Nat.mul_comm.
Qed.

Lemma well_sized_tabulate (w h : Z) (f : Z -> Z -> Q) :
  (0 <= w)%Z -> (0 <= h)%Z -> well_sized (tabulate w h f).
Proof.
  intros Hw Hh. repeat split; trivial. now apply length_tabulate.
Qed.

(** Inside a well-sized image every read is inside the buffer. *)
Lemma get_in_image (img : Image) (x y : Z) :
  well_sized img -> in_image img x y -> get img x y = Some (at_ img x y).
Proof.
  intros (Hw & Hh & Hlen) [Hx Hy]. unfold at_.
  destruct (get img x y) as [v |] eqn:E; [reflexivity | exfalso].
  unfold get, offset in E.
  assert (0 <= x + y * width img < width img * height img)%Z as Hoff by nia.
  replace (0 <=? x + y * width img)%Z with true in E
    by (symmetry; apply Z.leb_le; lia).
  apply nth_error_None in E. lia.
Qed.

(** Around a cell off the border the whole patch is inside the image. *)
Lemma patch_in_image (img : Image) (x y a b : Z) :
  in_image img x y -> border (width img) (height img) x y = false ->
  (0 <= a <= 2)%Z -> (0 <= b <= 2)%Z ->
  in_image img (x + (a - 1)) (y + (b - 1)).
Proof.
  intros [Hx Hy] Hb Ha Hb'. unfold border in Hb.
  repeat (apply Bool.orb_false_elim in Hb; destruct Hb as [Hb ?]).
  unfold in_image. lia.
Qed.

(** ** Sorting *)

Lemma insert_perm (v : Q) (l : list Q) : Permutation (insert v l) (v :: l).
Proof.
  induction l as [| a t IH]; simpl; [reflexivity |].
  destruct (Qle_bool v a); [reflexivity |].
  rewrite IH. apply perm_swap.
Qed.

Lemma sort_perm (l : list Q) : Permutation (sort l) l.
Proof.
  induction l as [| a t IH]; simpl; [reflexivity |].
  rewrite insert_perm. now constructor.
Qed.



Lemma length_sort (l : list Q) : length (sort l) = length l.
Proof. apply Permutation_length, sort_perm. Qed.

(** ** Median filter *)






(** ** Hole filling *)

Lemma in_zrange (n k : Z) : In k (zrange n) <-> (0 <= k < n)%Z.
Proof.
  unfold zrange. rewrite in_map_iff. split.
  - intros (i & <- & Hi). apply in_seq in Hi. lia.
  - intros Hk. exists (Z.to_nat k). split; [lia |]. apply in_seq. lia.
Qed.

Lemma in_cells (w h x y : Z) :
  In (x, y) (cells w h) <-> (0 <= x < w)%Z /\ (0 <= y < h)%Z.
Proof.
  unfold cells. rewrite in_flat_map. split.
  - intros (j & Hj & Hi). apply in_map_iff in Hi.
    destruct Hi as (i & E & Hi). injection E as <- <-.
    apply in_zrange in Hj, Hi. tauto.
  - intros [Hx Hy]. exists y. split; [now apply in_zrange |].
    apply in_map_iff. exists x. split; [reflexivity | now apply in_zrange].
Qed.

(** The flag after a pass: some cell of the image set it. *)
Lemma holes_flag (hmap : Image) :
  snd (fill_pass hmap) = true <->
  exists x y, in_image hmap x y /\ snd (fill_cell hmap x y) = true.
Proof.
  unfold fill_pass. simpl. rewrite existsb_exists. split.
  - intros ([x y] & Hin & Hc). exists x, y. split; [| exact Hc].
    now apply in_cells.
  - intros (x & y & Hin & Hc). exists (x, y). split; [| exact Hc].
    now apply in_cells.
Qed.

Lemma get_fill_pass (hmap : Image) (x y : Z) :
  in_image hmap x y ->
  get (fst (fill_pass hmap)) x y = Some (fst (fill_cell hmap x y)).
Proof. intros [Hx Hy]. unfold fill_pass. simpl. now apply get_tabulate. Qed.

Lemma remove_lowest_spec (l : list Q) (v : Q) :
  In v (remove_lowest l) <-> In v l /\ ~ v == lowest.
Proof.
  unfold remove_lowest. rewrite filter_In, Bool.negb_true_iff, is_lowest_false.
  reflexivity.
Qed.

(** The middle entry of the sorted heights that are left is one of them. *)
Lemma middle_in (l : list Q) :
  (3 <= length l)%nat -> In (nth (length l / 2) (sort l) 0) l.
Proof.
  intros Hn. apply (Permutation_in _ (sort_perm l)).
  apply nth_In. rewrite length_sort.
  apply Nat.div_lt; lia.
Qed.

(** The four cases of the body of the loops. *)
Section FillCell.
Variables (hmap : Image) (x y : Z).
Let valid := remove_lowest (flat9 (patch hmap x y)).

Lemma fill_cell_border :
  border (width hmap) (height hmap) x y = true ->
  fill_cell hmap x y = (lowest, false).
Proof. intros Hb. unfold fill_cell. now rewrite Hb. Qed.

Lemma fill_cell_copy :
  border (width hmap) (height hmap) x y = false ->
  ~ at_ hmap x y == lowest ->
  fill_cell hmap x y = (at_ hmap x y, false).
Proof.
  intros Hb Hv. apply is_lowest_false in Hv.
  unfold fill_cell. now rewrite Hb, Hv.
Qed.

Lemma fill_cell_median :
  border (width hmap) (height hmap) x y = false ->
  at_ hmap x y == lowest -> (3 <= length valid)%nat ->
  fill_cell hmap x y = (nth (length valid / 2) (sort valid) 0, false).
Proof.
  intros Hb Hv Hn. apply is_lowest_true in Hv.
  unfold fill_cell. rewrite Hb, Hv. cbn [negb]. cbv zeta. fold valid.
  destruct (Nat.leb_spec 3 (length valid)); [reflexivity | lia].
Qed.

Lemma fill_cell_hole :
  border (width hmap) (height hmap) x y = false ->
  at_ hmap x y == lowest -> (length valid < 3)%nat ->
  fill_cell hmap x y = (lowest, true).
Proof.
  intros Hb Hv Hn. apply is_lowest_true in Hv.
  unfold fill_cell. rewrite Hb, Hv. cbn [negb]. cbv zeta. fold valid.
  destruct (Nat.leb_spec 3 (length valid)); [lia | reflexivity].
Qed.


(** A cell that does not set the flag and is off the border ends with a
    height. *)
Lemma fill_cell_height :
  border (width hmap) (height hmap) x y = false ->
  snd (fill_cell hmap x y) = false ->
  ~ fst (fill_cell hmap x y) == lowest.
Proof.
  intros Hb.
  destruct (is_lowest (at_ hmap x y)) eqn:Hv.
  2:{ apply is_lowest_false in Hv. now rewrite fill_cell_copy. }
  apply is_lowest_true in Hv.
  destruct (Nat.leb_spec 3 (length valid)) as [Hn | Hn].
  - rewrite fill_cell_median by assumption. intros _. cbn [fst].
    apply (remove_lowest_spec (flat9 (patch hmap x y))).
    now apply middle_in.
  - now rewrite fill_cell_hole.
Qed.

End FillCell.



(** The hole of [pierced] is closed by one pass with the median 9 of its
    eight neighbours 4, 5, 6, 7, 9, 10, 11, 12. *)
Example fill_pass_pierced :
  get (fst (fill_pass pierced)) 2 2 = Some (inject_Z 9) /\
  snd (fill_pass pierced) = false.
Proof. split; reflexivity. Qed.

(** A pass keeps the size of the image. *)
Lemma fill_pass_well_sized (hmap : Image) :
  well_sized hmap -> well_sized (fst (fill_pass hmap)).
Proof. intros Hwf. apply well_sized_tabulate; apply Hwf. Qed.

Lemma fill_holes_step (fuel : nat) (hmap : Image) :
  fill_holes (S fuel) hmap
  = if snd (fill_pass hmap) then fill_holes fuel (fst (fill_pass hmap))
    else Some (fst (fill_pass hmap)).
Proof.
  cbn [fill_holes]. destruct (fill_pass hmap) as [tmp holes]. reflexivity.
Qed.

(** A result does not depend on the number of passes allowed. *)
Lemma fill_holes_more_fuel (fuel extra : nat) (hmap out : Image) :
  fill_holes fuel hmap = Some out ->
  fill_holes (fuel + extra) hmap = Some out.
Proof.
  revert hmap. induction fuel as [| fuel IH]; intros hmap H; [discriminate |].
  change (S fuel + extra)%nat with (S (fuel + extra)).
  rewrite fill_holes_step in *.
  destruct (snd (fill_pass hmap)); [now apply IH | exact H].
Qed.

(** C5 (as amended).  When the loop of the hole filler ends, the image it
    leaves is the result of a pass that did not set [holes]; every cell of
    it off the border holds a height other than [lowest], and every border
    cell holds [lowest]. *)
Theorem fill_holes_result (fuel : nat) (hmap out : Image) :
  well_sized hmap -> fill_holes fuel hmap = Some out ->
  width out = width hmap /\ height out = height hmap /\
  (exists last : Image,
     out = fst (fill_pass last) /\ snd (fill_pass last) = false) /\
  forall x y, in_image out x y ->
    (border (width out) (height out) x y = true ->
     get out x y = Some lowest) /\
    (border (width out) (height out) x y = false ->
     exists v : Q, get out x y = Some v /\ ~ v == lowest).
Proof.
  revert hmap. induction fuel as [| fuel IH]; intros hmap Hwf Hrun.
  { discriminate. }
  rewrite fill_holes_step in Hrun.
  destruct (snd (fill_pass hmap)) eqn:Hflag.
  - pose proof (fill_pass_well_sized hmap Hwf) as Hwf'.
    destruct (IH _ Hwf' Hrun) as (Hw & Hh & Hlast & Hcells).
    split; [now rewrite Hw |]. split; [now rewrite Hh |]. auto.
  - assert (fst (fill_pass hmap) = out) as E by congruence.
    clear Hrun. subst out.
    split; [reflexivity |]. split; [reflexivity |].
    split; [exists hmap; auto |].
    intros x y Hin. change (in_image hmap x y) in Hin.
    change (width (fst (fill_pass hmap))) with (width hmap).
    change (height (fst (fill_pass hmap))) with (height hmap).
    rewrite get_fill_pass by assumption.
    split; intros Hb.
    + now rewrite fill_cell_border.
    + exists (fst (fill_cell hmap x y)). split; [reflexivity |].
      apply fill_cell_height; [assumption |].
      destruct (snd (fill_cell hmap x y)) eqn:Hf; [| reflexivity].
      assert (snd (fill_pass hmap) = true) as C
        by (apply holes_flag; now exists x, y).
      congruence.
Qed.

Lemma fill_holes_result_witness :
  exists v : Q,
    option_map (fun out => get out 2 2) (fill_holes 2 pierced) = Some (Some v)
    /\ ~ v == lowest.
Proof.
  assert (well_sized pierced) as Hwf by (repeat split; discriminate).
  destruct (fill_holes 2 pierced) as [out |] eqn:Hrun; [| discriminate].
  destruct (fill_holes_result 2 pierced out Hwf Hrun) as (Hw & Hh & _ & Hcells).
  assert (in_image out 2 2) as Hin.
  { unfold in_image. rewrite Hw, Hh. repeat split; discriminate. }
  destruct (Hcells 2%Z 2%Z Hin) as [_ Hoff].
  destruct Hoff as (v & Hget & Hv).
  { rewrite Hw, Hh. reflexivity. }
  exists v. simpl. rewrite Hget. auto.
Defined.

(** C5 as stated fails: on the 3 x 3 plateau the loop ends after one pass
    and the corner of the image it leaves holds [lowest]. *)
Lemma fill_holes_leaves_lowest_border :
  well_sized plateau /\
  fill_holes 1 plateau = Some (fst (fill_pass plateau)) /\
  in_image (fst (fill_pass plateau)) 0 0 /\
  get (fst (fill_pass plateau)) 0 0 = Some lowest.
Proof. repeat split; discriminate. Qed.

(** ** A height map without heights *)

Lemma no_heights_nothing_left (l : list Q) :
  Forall (fun v => v == lowest) l -> remove_lowest l = [].
Proof.
  induction 1 as [| v t Hv _ IH]; [reflexivity |].
  unfold remove_lowest in *. cbn [filter].
  apply is_lowest_true in Hv. now rewrite Hv.
Qed.

(** On an image no cell of which holds a height and which has a cell off
    the border, every pass sets [holes] again: the loop of the hole filler
    does not end, whatever the number of passes allowed. *)
Theorem fill_holes_empty_diverges (fuel : nat) (hmap : Image) :
  well_sized hmap ->
  (3 <= width hmap)%Z -> (3 <= height hmap)%Z ->
  (forall x y, in_image hmap x y -> at_ hmap x y == lowest) ->
  fill_holes fuel hmap = None.
Proof.
  revert hmap. induction fuel as [| fuel IH]; intros hmap Hwf Hw Hh Hall.
  { reflexivity. }
  assert (forall x y, in_image hmap x y ->
            border (width hmap) (height hmap) x y = false ->
            fill_cell hmap x y = (lowest, true)) as Hcell.
  { intros x y Hin Hb. apply fill_cell_hole; trivial; [now apply Hall |].
    rewrite no_heights_nothing_left; [simpl; lia |].
    unfold flat9. repeat constructor; apply Hall;
      apply patch_in_image; trivial; lia. }
  rewrite fill_holes_step.
  replace (snd (fill_pass hmap)) with true.
  - apply IH; trivial.
    + now apply fill_pass_well_sized.
    + intros x y Hin. change (in_image hmap x y) in Hin.
      unfold at_. rewrite get_fill_pass by assumption.
      destruct (border (width hmap) (height hmap) x y) eqn:Hb.
      * now rewrite fill_cell_border.
      * now rewrite Hcell.
  - symmetry. apply holes_flag. exists 1%Z, 1%Z.
    assert (in_image hmap 1 1) as Hin by (unfold in_image; lia).
    split; [exact Hin |]. rewrite Hcell; [reflexivity | exact Hin |].
    unfold border.
    repeat (apply Bool.orb_false_intro); apply Z.eqb_neq; lia.
Qed.

Lemma fill_holes_empty_diverges_witness : fill_holes 7 void3 = None.
Proof.
  apply fill_holes_empty_diverges.
  - repeat split; discriminate.
  - discriminate.
  - discriminate.
  - intros x y [Hx Hy]. unfold void3 in *. cbn [width height create_filled] in *.
    unfold at_. now rewrite get_create_filled.
Defined.

(** ** Artificial samples *)

Section ResamplerFacts.

Variable normalize : Vec3 -> Vec3.
Variable find_nn : Vec3 -> Q -> bool.
Variable fuse : bool.
Variable r : Q.
Variable aabb : AABB.
Variable ground_level : Q.
Variable hmap : Image.
Variables x y : Z.

Local Abbreviation m := (magnitude hmap x y).
Local Abbreviation walls_from :=
  (walls normalize find_nn fuse r aabb ground_level hmap x y).
Local Abbreviation wall i :=
  (mkSample (wall_vertex r aabb ground_level hmap x y i)
            (normal normalize hmap x y)).


(** In a pit all four differences point upward, so the magnitude is
    negative. *)
Lemma concave_magnitude : concave hmap x y = true -> m < 0.
Proof.
  unfold concave. rewrite !Bool.andb_true_iff, !fltb_true.
  intros [[[Hfx Hrx] Hfy] Hry].
  unfold magnitude. repeat apply fmax_lt; lra.
Qed.


(** The walk ends by its own test: any bound on the number of iterations
    from [floor(m / r) - i + 1] on gives the same samples, and [wall_steps]
    is such a bound. *)
Lemma walls_fuel (f1 : nat) :
  forall (f2 : nat) (i : Z),
    (Qfloor (m / r) - i + 1 <= Z.of_nat f1)%Z ->
    (Qfloor (m / r) - i + 1 <= Z.of_nat f2)%Z ->
    walls_from f1 i = walls_from f2 i.
Proof.
  assert (forall (f : nat) (i : Z),
            (Qfloor (m / r) < i)%Z -> walls_from f i = []) as Hend.
  { intros [| f] i Hi; [reflexivity |]. cbn [walls].
    destruct (Qle_bool (inject_Z i) (m / r)) eqn:E; [| reflexivity].
    apply Qle_bool_iff, le_floor in E. lia. }
  induction f1 as [| f1 IH]; intros f2 i H1 H2.
  { rewrite !Hend by lia. reflexivity. }
  destruct f2 as [| f2]; [rewrite !Hend by lia; reflexivity |].
  cbn [walls].
  destruct (Qle_bool (inject_Z i) (m / r)); [| reflexivity].
  rewrite (IH f2 (i + 1)%Z) by lia. reflexivity.
Qed.

Lemma wall_steps_enough (fuel : nat) :
  (wall_steps r hmap x y <= fuel)%nat ->
  walls_from fuel 1 = walls_from (wall_steps r hmap x y) 1.
Proof.
  intros Hf.
  assert (Qfloor (m / r) <= Z.of_nat (wall_steps r hmap x y))%Z.
  { unfold wall_steps. destruct (Qlt_le_dec (m / r) 0) as [Hneg | Hpos].
    - assert (Qfloor (m / r) <= Qfloor 0)%Z
        by (apply Qfloor_resp_le; lra).
      change (Qfloor 0) with 0%Z in *. lia.
    - rewrite to_int_floor by assumption.
      assert (Qfloor 0 <= Qfloor (m / r))%Z by now apply Qfloor_resp_le.
      change (Qfloor 0) with 0%Z in *. lia. }
  apply walls_fuel; lia.
Qed.






(** With a resolution that is not negative a pit always counts as flat, so
    the concavity test of the walk never decides anything. *)
Lemma concave_is_flat :
  0 <= r -> concave hmap x y = true -> Qle_bool m r = true.
Proof.
  intros Hr Hc. apply concave_magnitude in Hc. apply Qle_bool_iff. lra.
Qed.

End ResamplerFacts.


(** With [fuse] on the same cell appends nothing. *)
Example flat_cell_fused :
  cell_samples keep_vector nothing_near true 1 (aabb_of cloud_unit) 10
               flat5 2 2 = [].
Proof. reflexivity. Qed.



(** ** Height-map creation *)

(** C7 fails on the cloud [cloud_slab] at resolution 1/2.  Its height map
    is 3 x 5.  The vertex (1.25, 0, 1) gets the indices (3, 0); the column
    3 is not a column of the image and the write lands at offset 3 of the
    buffer, which is the cell (0, 1).  No vertex of the cloud has the
    indices (0, 1), yet that cell holds 1 afterwards instead of
    [lowest]. *)
Theorem write_lands_in_other_cell :
  let verts := cloud_slab in
  let r := 1 # 2 in
  let aabb := aabb_of verts in
  0 < volume aabb /\ 0 < r /\
  exists hmap : Image,
    create_height_map verts r = Some hmap /\
    width hmap = 3%Z /\ height hmap = 5%Z /\
    bin_x aabb r (vec (5 # 4) 0 1) = 3%Z /\
    bin_y aabb r (vec (5 # 4) 0 1) = 0%Z /\
    ~ in_image hmap 3 0 /\
    in_image hmap 0 1 /\
    get hmap 0 1 = Some 1 /\
    ~ 1 == lowest /\
    forall p, In p verts -> ~ (bin_x aabb r p = 0%Z /\ bin_y aabb r p = 1%Z).
Proof.
  cbv zeta. split; [reflexivity |]. split; [reflexivity |].
  destruct (create_height_map cloud_slab (1 # 2)) as [hmap |] eqn:E;
    [| discriminate].
  exists hmap. split; [reflexivity |].
  vm_compute in E. injection E as <-.
  repeat split; try discriminate; try reflexivity.
  - unfold in_image. simpl. lia.
  - intros p [<- | [<- | [<- | []]]]; vm_compute; intros [? ?]; discriminate.
Qed.

(** ** Height-map creation when every index is inside the image *)









Section SplatInRange.

Variables (aabb : AABB) (r : Q).



End SplatInRange.





(** *** The bounding box does not depend on the order of the cloud *)
















(** The cell (0, 0) of [cloud_pair] receives the heights 4, 6 and 3 and
    keeps 6. *)
Example create_height_map_pair :
  option_map (fun hmap => (get hmap 0 0, get hmap 1 1, get hmap 2 2))
             (create_height_map cloud_pair (1 # 2))
  = Some (Some (inject_Z 6), Some lowest, Some (inject_Z 5)).
Proof. reflexivity. Qed.


(** ** A resolution of at least 1 *)

Section SplatOutside.

Variables (aabb : AABB) (r : Q).




End SplatOutside.

Lemma float_max_pos : 0 < float_max.
Proof. reflexivity. Qed.





(** ** The number of wall samples in general *)



(** Around a processed cell the whole patch is inside the image, so the
    nine reads of [patch] stay inside the buffer. *)
Lemma processed_patch_reads (hmap : Image) (x y a b : Z) :
  well_sized hmap -> skipped hmap x y = false ->
  (0 <= a <= 2)%Z -> (0 <= b <= 2)%Z ->
  get hmap (x + (a - 1)) (y + (b - 1)) = Some (heights hmap x y a b).
Proof.
  intros Hwf Hs Ha Hb. unfold skipped in Hs.
  repeat (apply Bool.orb_false_elim in Hs; destruct Hs as [Hs ?]).
  apply get_in_image; [assumption |]. unfold in_image. lia.
Qed.

(** ** Ground level *)




(** The heights 5, 7 and 9 give the ground level 5 and the normalised
    heights 0, 2 and 4; the empty cell reads 0. *)
Example normalize_terraces :
  ground_level_of terraces = 5 /\
  Forall2 Qeq (pixels (normalize_heights terraces (ground_level_of terraces)))
          [2; 0; 0; 4].
Proof. split; [reflexivity | repeat constructor]. Qed.
